(** * wmbusmeters: the Sharky TCH heat-meter driver and the shell hook

    A shallow embedding of [src/meter_sharky_tch.cc] and [src/shell.cc].
    The C++ [double] is Rocq's primitive binary64 [float]; [int] and
    [pid_t] values are [Z]; [std::string] is [string]; the driver object
    is a record of its eight members and [processContent] passes it and
    the telegram along explicitly.  The collaborators whose code lives in
    other translation units (dvparser, units, util) are either taken as
    an interface ([DVParser]) or written down from the specification, and
    say so in their comment. *)

From Stdlib Require Import ZArith Lia PrimFloat Uint63.
From stdpp Require Import base option list strings.

Set Warnings "-inexact-float".
#[local] Open Scope Z_scope.

(** ** Contract faults

    [assertQuantity] and [convert] do not return an error code: a unit
    of the wrong quantity is a programming error that stops the
    operation.  [Result] keeps that outcome apart from a number, and
    keeps with it which of the two checks stopped the operation. *)

Inductive Check :=
| QuantityAssertion
| UnitConversion.

Inductive Result (A : Type) : Type :=
| Ok (a : A)
| ContractViolation (by_check : Check).
Arguments Ok {A} a.
Arguments ContractViolation {A} by_check.

#[global] Instance Result_ret : MRet Result := fun _ a => Ok a.
#[global] Instance Result_bind : MBind Result := fun _ _ f r =>
  match r with
  | Ok a => f a
  | ContractViolation c => ContractViolation c
  end.

(** ** Units (units.h is not part of the sources at hand) *)

(** Modelled from the spec: the closed enumeration of quantities (section
    3), with the constructor names the driver uses ([Quantity::Flow] for
    the volume flow). *)
Module Quantity.
Inductive t := Energy | Volume | Flow | Power | Temperature | Time.

#[global] Instance eq_dec : EqDecision t.
Proof. solve_decision. Defined.
End Quantity.

(** Modelled from the spec: the units.  [KWH], [M3], [M3H], [KW], [C] and
    [Second] are the ones the driver names; each quantity gets one further
    unit so that conversion has something to do, among them the watt and
    the affine Fahrenheit scale of section 4.4. *)
Module Unit.
Inductive t :=
| KWH | MJ
| M3 | L
| M3H | LH
| KW | W
| C | F
| Second | Minute | Hour.

#[global] Instance eq_dec : EqDecision t.
Proof. solve_decision. Defined.

(** Every unit is tagged with exactly one quantity. *)
Definition quantity (u : t) : Quantity.t :=
  match u with
  | KWH | MJ => Quantity.Energy
  | M3 | L => Quantity.Volume
  | M3H | LH => Quantity.Flow
  | KW | W => Quantity.Power
  | C | F => Quantity.Temperature
  | Second | Minute | Hour => Quantity.Time
  end.

(** The table of section 4.4: a factor relative to the base unit of the
    quantity, or a scale and an offset where the zero points differ. *)
Inductive Transform :=
| Factor (k : float)
| Affine (scale offset : float).

Definition transform (u : t) : Transform :=
  match u with
  | KWH => Factor 1
  | MJ => Factor (1 / 3.6)
  | M3 => Factor 1
  | L => Factor (1 / 1000)
  | M3H => Factor 1
  | LH => Factor (1 / 1000)
  | KW => Factor 1
  | W => Factor (1 / 1000)
  | C => Factor 1
  | F => Affine 1.8 32
  | Second => Factor 1
  | Minute => Factor 60
  | Hour => Factor 3600
  end%float.

Definition toBase (u : t) (v : float) : float :=
  match transform u with
  | Factor k => v * k
  | Affine s o => (v - o) / s
  end%float.

Definition fromBase (u : t) (b : float) : float :=
  match transform u with
  | Factor k => b / k
  | Affine s o => b * s + o
  end%float.
End Unit.

(** Modelled from the spec: [convert] of section 4.4 rebases the value to
    the base unit of the quantity and transforms it forward; between
    units of different quantities it signals the contract violation. *)
Definition convert (v : float) (from to : Unit.t) : Result float :=
  if decide (Unit.quantity from = Unit.quantity to)
  then Ok (Unit.fromBase to (Unit.toBase from v))
  else ContractViolation UnitConversion.

(** Modelled from the spec: [assertQuantity] is the assertion
    [unit.quantity == spec.quantity] of section 4.5, a contract violation
    when it does not hold. *)
Definition assertQuantity (u : Unit.t) (q : Quantity.t) : Result unit :=
  if decide (Unit.quantity u = q)
  then Ok tt
  else ContractViolation QuantityAssertion.

(** ** The record index (dvparser.h is not part of the sources at hand) *)

(** Modelled from the spec: the value-type tags of section 3. *)
Module MeasurementType.
Inductive t := Instantaneous | Minimum | Maximum | AtError.

#[global] Instance eq_dec : EqDecision t.
Proof. solve_decision. Defined.
End MeasurementType.

(** Modelled from the spec: the quantity tags, with the constructor names
    [processContent] selects on. *)
Module ValueInformation.
Inductive t :=
| EnergyWh | Volume | VolumeFlow | PowerW
| FlowTemperature | ReturnTemperature | OperatingTime.

#[global] Instance eq_dec : EqDecision t.
Proof. solve_decision. Defined.
End ValueInformation.

(** The two dvparser calls of [processContent], as an interface.
    [findKey] returns [true] and writes the key of the record it found,
    here [Some key]; [extractDVdouble] writes the offset of the record
    and its scaled value through its two out-pointers, here the pair it
    returns. *)
Class DVParser := {
  Values : Type;
  findKey : MeasurementType.t → ValueInformation.t → Z → Z → Values →
            option string;
  extractDVdouble : Values → string → Z * float;
}.

(** Modelled from the spec: a telegram as far as the driver touches it
    (wmbus.h is not part of the sources at hand): the parsed records,
    which stay as parsed, and the annotations attached for telegram
    dumps (sections 3 and 4.5).  An annotation keeps the format string
    and the number printed through its [%f]. *)
Record Telegram `{DVParser} := mkTelegram {
  values : Values;
  explanations : list (Z * string * float);
}.

(** Modelled from the spec: [addMoreExplanation] attaches an annotation
    at an offset and touches nothing else of the telegram (section 4.5);
    the annotations are kept in the order of the calls. *)
Definition addMoreExplanation `{DVParser}
    (pos : Z) (fmt : string) (v : float) (t : Telegram) : Telegram :=
  {| values := values t;
     explanations := explanations t ++ [(pos, fmt, v)] |}.

(** ** The driver: src/meter_sharky_tch.cc *)

(** The one link mode the driver names. *)
Inductive LinkMode := T1.

(** The members of [struct MeterSharkyTch], and the link modes the base
    class collects. *)
Record MeterSharkyTch := mkMeterSharkyTch {
  total_energy_kwh_ : float;
  total_volume_m3_ : float;
  volume_flow_m3h_ : float;
  power_w_ : float;
  flow_temperature_c_ : float;
  return_temperature_c_ : float;
  total_energy_tariff1_kwh_ : float;
  operating_time_t_ : float;
  keys : list Z;
  link_modes : list LinkMode;
}.

Definition addLinkMode (lm : LinkMode) (m : MeterSharkyTch) : MeterSharkyTch :=
  mkMeterSharkyTch
    (total_energy_kwh_ m) (total_volume_m3_ m) (volume_flow_m3h_ m)
    (power_w_ m) (flow_temperature_c_ m) (return_temperature_c_ m)
    (total_energy_tariff1_kwh_ m) (operating_time_t_ m) (keys m)
    (link_modes m ++ [lm]).

(** The eight accessors, lines 101 to 147. *)

Definition totalEnergyConsumption (m : MeterSharkyTch) (u : Unit.t) : Result float :=
  _ ← assertQuantity u Quantity.Energy;
  convert (total_energy_kwh_ m) Unit.KWH u.

Definition totalVolume (m : MeterSharkyTch) (u : Unit.t) : Result float :=
  _ ← assertQuantity u Quantity.Volume;
  convert (total_volume_m3_ m) Unit.M3 u.

Definition volumeFlow (m : MeterSharkyTch) (u : Unit.t) : Result float :=
  _ ← assertQuantity u Quantity.Flow;
  convert (volume_flow_m3h_ m) Unit.M3H u.

Definition power (m : MeterSharkyTch) (u : Unit.t) : Result float :=
  _ ← assertQuantity u Quantity.Power;
  convert (power_w_ m) Unit.KW u.

Definition flowTemperature (m : MeterSharkyTch) (u : Unit.t) : Result float :=
  _ ← assertQuantity u Quantity.Temperature;
  convert (flow_temperature_c_ m) Unit.C u.

Definition returnTemperature (m : MeterSharkyTch) (u : Unit.t) : Result float :=
  _ ← assertQuantity u Quantity.Temperature;
  convert (return_temperature_c_ m) Unit.C u.

Definition totalEnergyConsumptionTariff1 (m : MeterSharkyTch) (u : Unit.t) : Result float :=
  _ ← assertQuantity u Quantity.Energy;
  convert (total_energy_tariff1_kwh_ m) Unit.KWH u.

Definition operatingTime (m : MeterSharkyTch) (u : Unit.t) : Result float :=
  _ ← assertQuantity u Quantity.Time;
  convert (operating_time_t_ m) Unit.Second u.

(** The object a constructor call yields: every member declared with an
    empty brace initialiser starts at zero, and the body adds the link
    mode [T1].  (The [MeterInfo] argument only travels on to the base
    class.) *)
Definition new_MeterSharkyTch : MeterSharkyTch :=
  addLinkMode T1
    {| total_energy_kwh_ := 0; total_volume_m3_ := 0; volume_flow_m3h_ := 0;
       power_w_ := 0; flow_temperature_c_ := 0; return_temperature_c_ := 0;
       total_energy_tariff1_kwh_ := 0; operating_time_t_ := 0;
       keys := []; link_modes := [] |}%float.

(** One registered output: the arguments of an [addPrint] call.  The
    lambda [[&](Unit u){ return accessor(u); }] reads the object at the
    time of the call, so the getter takes the object. *)
Record Print := mkPrint {
  print_name : string;
  print_quantity : Quantity.t;
  print_getter : MeterSharkyTch → Unit.t → Result float;
  print_help : string;
  print_field : bool;
  print_json : bool;
}.

(** The eight [addPrint] calls of the constructor, in order. *)
Definition prints : list Print :=
  [ mkPrint "total_energy_consumption" Quantity.Energy
      totalEnergyConsumption
      "The total energy consumption recorded by this meter." true true;
    mkPrint "total_volume" Quantity.Volume
      totalVolume
      "The total volume recorded by this meter." true true;
    mkPrint "volume_flow" Quantity.Flow
      volumeFlow
      "The current flow." true true;
    mkPrint "power" Quantity.Power
      power
      "The power." true true;
    mkPrint "flow_temperature" Quantity.Temperature
      flowTemperature
      "The flow temperature." true true;
    mkPrint "return_temperature" Quantity.Temperature
      returnTemperature
      "The return temperature." true true;
    mkPrint "total_energy_consumption_tariff1" Quantity.Energy
      totalEnergyConsumptionTariff1
      "The total energy consumption recorded by this meter on tariff 1." true true;
    mkPrint "operating_time" Quantity.Time
      operatingTime
      "The temperature difference." true true ].

(** Assignment through the pointer [&member_] that [extractDVdouble]
    receives. *)
Definition set_total_energy_kwh_ (v : float) (m : MeterSharkyTch) :=
  mkMeterSharkyTch v (total_volume_m3_ m) (volume_flow_m3h_ m) (power_w_ m)
    (flow_temperature_c_ m) (return_temperature_c_ m)
    (total_energy_tariff1_kwh_ m) (operating_time_t_ m) (keys m) (link_modes m).

Definition set_total_volume_m3_ (v : float) (m : MeterSharkyTch) :=
  mkMeterSharkyTch (total_energy_kwh_ m) v (volume_flow_m3h_ m) (power_w_ m)
    (flow_temperature_c_ m) (return_temperature_c_ m)
    (total_energy_tariff1_kwh_ m) (operating_time_t_ m) (keys m) (link_modes m).

Definition set_volume_flow_m3h_ (v : float) (m : MeterSharkyTch) :=
  mkMeterSharkyTch (total_energy_kwh_ m) (total_volume_m3_ m) v (power_w_ m)
    (flow_temperature_c_ m) (return_temperature_c_ m)
    (total_energy_tariff1_kwh_ m) (operating_time_t_ m) (keys m) (link_modes m).

Definition set_power_w_ (v : float) (m : MeterSharkyTch) :=
  mkMeterSharkyTch (total_energy_kwh_ m) (total_volume_m3_ m) (volume_flow_m3h_ m) v
    (flow_temperature_c_ m) (return_temperature_c_ m)
    (total_energy_tariff1_kwh_ m) (operating_time_t_ m) (keys m) (link_modes m).

Definition set_flow_temperature_c_ (v : float) (m : MeterSharkyTch) :=
  mkMeterSharkyTch (total_energy_kwh_ m) (total_volume_m3_ m) (volume_flow_m3h_ m)
    (power_w_ m) v (return_temperature_c_ m)
    (total_energy_tariff1_kwh_ m) (operating_time_t_ m) (keys m) (link_modes m).

Definition set_return_temperature_c_ (v : float) (m : MeterSharkyTch) :=
  mkMeterSharkyTch (total_energy_kwh_ m) (total_volume_m3_ m) (volume_flow_m3h_ m)
    (power_w_ m) (flow_temperature_c_ m) v
    (total_energy_tariff1_kwh_ m) (operating_time_t_ m) (keys m) (link_modes m).

Definition set_total_energy_tariff1_kwh_ (v : float) (m : MeterSharkyTch) :=
  mkMeterSharkyTch (total_energy_kwh_ m) (total_volume_m3_ m) (volume_flow_m3h_ m)
    (power_w_ m) (flow_temperature_c_ m) (return_temperature_c_ m)
    v (operating_time_t_ m) (keys m) (link_modes m).

Definition set_operating_time_t_ (v : float) (m : MeterSharkyTch) :=
  mkMeterSharkyTch (total_energy_kwh_ m) (total_volume_m3_ m) (volume_flow_m3h_ m)
    (power_w_ m) (flow_temperature_c_ m) (return_temperature_c_ m)
    (total_energy_tariff1_kwh_ m) v (keys m) (link_modes m).

Section ProcessContent.
Context `{DVParser}.

(** What [processContent] has in hand: the object and the telegram. *)
Definition State : Type := MeterSharkyTch * Telegram.

(** The block [processContent] repeats for each member:
<<
  if (findKey(mt, vi, storagenr, tariff, &key, &t->values)) {
      extractDVdouble(&t->values, key, &offset, &member_);
      t->addMoreExplanation(offset, fmt, member_);
  }
>>
    [set] and [get] stand for the member behind the pointer.  The
    locals [key] and [offset] are read only in the block that has just
    written them, so each block binds its own. *)
Definition block (mt : MeasurementType.t) (vi : ValueInformation.t)
    (storagenr tariff : Z)
    (set : float → MeterSharkyTch → MeterSharkyTch)
    (get : MeterSharkyTch → float)
    (fmt : string) (s : State) : State :=
  let '(m, t) := s in
  match findKey mt vi storagenr tariff (values t) with
  | Some key =>
      let '(offset, v) := extractDVdouble (values t) key in
      let m' := set v m in
      (m', addMoreExplanation offset fmt (get m') t)
  | None => (m, t)
  end.

(** [MeterSharkyTch::processContent], lines 149 to 222: the eight
    blocks in the order of the source. *)
Definition processContent (t : Telegram) (m : MeterSharkyTch) : State :=
  let s := (m, t) in
  let s := block MeasurementType.Instantaneous ValueInformation.EnergyWh 0 0
             set_total_energy_kwh_ total_energy_kwh_
             " total energy consumption (%f kWh)" s in
  let s := block MeasurementType.Instantaneous ValueInformation.Volume 0 0
             set_total_volume_m3_ total_volume_m3_
             " total volume (%f ㎥)" s in
  let s := block MeasurementType.Instantaneous ValueInformation.VolumeFlow 0 0
             set_volume_flow_m3h_ volume_flow_m3h_
             " volume flow (%f ㎥/h)" s in
  let s := block MeasurementType.Instantaneous ValueInformation.PowerW 0 0
             set_power_w_ power_w_
             " power (%f W)" s in
  let s := block MeasurementType.Instantaneous ValueInformation.FlowTemperature 0 0
             set_flow_temperature_c_ flow_temperature_c_
             " flow temperature (%f °C)" s in
  let s := block MeasurementType.Instantaneous ValueInformation.ReturnTemperature 0 0
             set_return_temperature_c_ return_temperature_c_
             " return temperature (%f °C)" s in
  let s := block MeasurementType.Instantaneous ValueInformation.EnergyWh 0 1
             set_total_energy_tariff1_kwh_ total_energy_tariff1_kwh_
             " total energy tariff 1 (%f kwh)" s in
  let s := block MeasurementType.Instantaneous ValueInformation.OperatingTime 0 0
             set_operating_time_t_ operating_time_t_
             " operating time (%f seconds)" s in
  s.

(** The driver over a run of telegrams, one at a time in receipt
    order; each telegram is dropped after its pass. *)
Definition processAll (ts : list Telegram) (m : MeterSharkyTch) : MeterSharkyTch :=
  foldl (λ m t, fst (processContent t m)) m ts.
End ProcessContent.

(** ** The eight (member, selector) pairs, as a table

    The statements below range over the members by name. *)
Inductive Field :=
| TotalEnergy | TotalVolume | VolumeFlowRate | PowerNow
| FlowTemp | ReturnTemp | TotalEnergyTariff1 | OperatingSeconds.

Definition member (f : Field) (m : MeterSharkyTch) : float :=
  match f with
  | TotalEnergy => total_energy_kwh_ m
  | TotalVolume => total_volume_m3_ m
  | VolumeFlowRate => volume_flow_m3h_ m
  | PowerNow => power_w_ m
  | FlowTemp => flow_temperature_c_ m
  | ReturnTemp => return_temperature_c_ m
  | TotalEnergyTariff1 => total_energy_tariff1_kwh_ m
  | OperatingSeconds => operating_time_t_ m
  end.

Record Selector := mkSelector {
  sel_type : MeasurementType.t;
  sel_info : ValueInformation.t;
  sel_storagenr : Z;
  sel_tariff : Z;
}.

Definition selector (f : Field) : Selector :=
  match f with
  | TotalEnergy =>
      mkSelector MeasurementType.Instantaneous ValueInformation.EnergyWh 0 0
  | TotalVolume =>
      mkSelector MeasurementType.Instantaneous ValueInformation.Volume 0 0
  | VolumeFlowRate =>
      mkSelector MeasurementType.Instantaneous ValueInformation.VolumeFlow 0 0
  | PowerNow =>
      mkSelector MeasurementType.Instantaneous ValueInformation.PowerW 0 0
  | FlowTemp =>
      mkSelector MeasurementType.Instantaneous ValueInformation.FlowTemperature 0 0
  | ReturnTemp =>
      mkSelector MeasurementType.Instantaneous ValueInformation.ReturnTemperature 0 0
  | TotalEnergyTariff1 =>
      mkSelector MeasurementType.Instantaneous ValueInformation.EnergyWh 0 1
  | OperatingSeconds =>
      mkSelector MeasurementType.Instantaneous ValueInformation.OperatingTime 0 0
  end.

(** What the selector of a member finds in a telegram: the decoded value
    of the record, or nothing. *)
Definition decoded `{DVParser} (f : Field) (t : Telegram) : option float :=
  let s := selector f in
  key ← findKey (sel_type s) (sel_info s) (sel_storagenr s) (sel_tariff s)
        (values t);
  Some (snd (extractDVdouble (values t) key)).

(** The value a run of telegrams decoded last for a member, if any of
    them carried a record for it. *)
Definition lastDecoded `{DVParser} (f : Field) (ts : list Telegram) : option float :=
  last (omap (decoded f) ts).

(** The members in the order in which the constructor registers their
    outputs, and the unit the accessor of each converts from. *)
Definition fields : list Field :=
  [ TotalEnergy; TotalVolume; VolumeFlowRate; PowerNow;
    FlowTemp; ReturnTemp; TotalEnergyTariff1; OperatingSeconds ].

Definition nativeUnit (f : Field) : Unit.t :=
  match f with
  | TotalEnergy => Unit.KWH
  | TotalVolume => Unit.M3
  | VolumeFlowRate => Unit.M3H
  | PowerNow => Unit.KW
  | FlowTemp => Unit.C
  | ReturnTemp => Unit.C
  | TotalEnergyTariff1 => Unit.KWH
  | OperatingSeconds => Unit.Second
  end.

(** What is asked of the output [p] that shows the member [f]: a unit of
    another quantity than the declared one is a contract violation, and
    the check that signals it is the quantity assertion, not the
    conversion behind it; any other unit yields the member converted
    from its native unit. *)
Definition quantityContract (p : Print) (f : Field) : Prop :=
  ∀ (m : MeterSharkyTch) (u : Unit.t),
    print_getter p m u =
      if decide (Unit.quantity u = print_quantity p)
      then Ok (Unit.fromBase u (Unit.toBase (nativeUnit f) (member f m)))
      else ContractViolation QuantityAssertion.

(** ** A record index to run the driver on

    The driver above works with any [DVParser].  The instance below is
    the one the specification describes, so that telegrams can be
    written down and decoded. *)

(** Modelled from the spec: the two encodings of section 3; whether a
    binary value is signed comes with the quantity tag. *)
Inductive Encoding :=
| PackedDecimal
| Binary (signed : bool).

(** Modelled from the spec: the data record of section 3.  The quantity
    tag is the value information together with its decimal exponent; a
    record without a tariff or sub-unit extension has tariff and
    sub-unit 0; the declared digit or byte count is the length of the
    payload. *)
Record DVEntry := mkDVEntry {
  dv_type : MeasurementType.t;
  dv_info : ValueInformation.t;
  dv_exponent : Z;
  dv_storagenr : Z;
  dv_tariff : Z;
  dv_subunit : Z;
  dv_encoding : Encoding;
  dv_payload : list Z;
  dv_offset : Z;
}.

(** Modelled from the spec: the records of a telegram in their order of
    appearance, each under the key the driver hands from [findKey] to
    [extractDVdouble]. *)
Definition Records : Type := list (string * DVEntry).

(** Modelled from the spec: a record matches a selector when measurement
    kind, quantity tag, storage number and tariff are the same; the
    driver's selectors leave the sub-unit open (section 4.2). *)
Definition hasKey (mt : MeasurementType.t) (vi : ValueInformation.t)
    (storagenr tariff : Z) (e : DVEntry) : bool :=
  bool_decide (dv_type e = mt) && bool_decide (dv_info e = vi)
  && bool_decide (dv_storagenr e = storagenr)
  && bool_decide (dv_tariff e = tariff).

(** Modelled from the spec: [resolve] of section 4.2, a linear scan in
    telegram order that stops at the first match. *)
Fixpoint findKeyIn (mt : MeasurementType.t) (vi : ValueInformation.t)
    (storagenr tariff : Z) (vs : Records) : option string :=
  match vs with
  | [] => None
  | (key, e) :: vs' =>
      if hasKey mt vi storagenr tariff e then Some key
      else findKeyIn mt vi storagenr tariff vs'
  end.

Fixpoint entryAt (key : string) (vs : Records) : option DVEntry :=
  match vs with
  | [] => None
  | (k, e) :: vs' => if decide (k = key) then Some e else entryAt key vs'
  end.

(** Modelled from the spec: packed decimal, least significant byte
    first, the low nibble of a byte the units digit of its pair. *)
Fixpoint packedDecimal (bytes : list Z) : Z :=
  match bytes with
  | [] => 0
  | b :: rest => 10 * (b `div` 16) + b `mod` 16 + 100 * packedDecimal rest
  end.

(** Modelled from the spec: a little-endian unsigned integer. *)
Fixpoint littleEndian (bytes : list Z) : Z :=
  match bytes with
  | [] => 0
  | b :: rest => b + 256 * littleEndian rest
  end.

Definition magnitude (e : DVEntry) : Z :=
  match dv_encoding e with
  | PackedDecimal => packedDecimal (dv_payload e)
  | Binary false => littleEndian (dv_payload e)
  | Binary true =>
      let n := littleEndian (dv_payload e) in
      let width := 8 * Z.of_nat (length (dv_payload e)) in
      if decide (n < 2 ^ (width - 1)) then n else n - 2 ^ width
  end.

(** The [double] nearest to an integer of at most 64 bits and a sign. *)
Definition floatOfZ (z : Z) : float :=
  let hi := of_uint63 (Uint63.of_Z (Z.abs z `div` 2 ^ 32)) in
  let lo := of_uint63 (Uint63.of_Z (Z.abs z `mod` 2 ^ 32)) in
  let mag := (hi * 4294967296 + lo)%float in
  if decide (z < 0) then (- mag)%float else mag.

Fixpoint pow10 (n : nat) : float :=
  match n with
  | O => 1
  | S n' => 10 * pow10 n'
  end%float.

(** Modelled from the spec: [decode] of section 4.3, the magnitude times
    the power of ten of the quantity tag. *)
Definition decode (e : DVEntry) : float :=
  let x := floatOfZ (magnitude e) in
  if decide (0 ≤ dv_exponent e)
  then (x * pow10 (Z.to_nat (dv_exponent e)))%float
  else (x / pow10 (Z.to_nat (- dv_exponent e)))%float.

(** Modelled from the spec: [extractDVdouble] yields the source offset
    and the decoded value of the record under the key.  A key from
    [findKeyIn] always names a record; for any other key both outputs
    are zero. *)
Definition extractDVdoubleIn (vs : Records) (key : string) : Z * float :=
  match entryAt key vs with
  | Some e => (dv_offset e, decode e)
  | None => (0, 0%float)
  end.

#[global] Instance records_parser : DVParser := {|
  Values := Records;
  findKey := findKeyIn;
  extractDVdouble := extractDVdoubleIn;
|}.

(** A packed-decimal instantaneous record of the current storage slot. *)
Definition bcdRecord (vi : ValueInformation.t) (exponent tariff : Z)
    (payload : list Z) (pos : Z) : DVEntry :=
  mkDVEntry MeasurementType.Instantaneous vi exponent 0 tariff 0
    PackedDecimal payload pos.

(** The telegrams of the scenarios of section 8. *)

(** T1: energy 120.5 kWh and return temperature 18.4 °C. *)
Definition telegram_T1 : Telegram :=
  mkTelegram _
    [ ("0C05", bcdRecord ValueInformation.EnergyWh (-1) 0 [0x05; 0x12; 0x00; 0x00] 15);
      ("0A5E", bcdRecord ValueInformation.ReturnTemperature (-1) 0 [0x84; 0x01] 21) ]
    [].

(** T2: energy 121.0 kWh and nothing else. *)
Definition telegram_T2 : Telegram :=
  mkTelegram _
    [ ("0C05", bcdRecord ValueInformation.EnergyWh (-1) 0 [0x10; 0x12; 0x00; 0x00] 15) ]
    [].

(** Energy 50 kWh on tariff 0 and 5 kWh on tariff 1. *)
Definition telegram_tariffs : Telegram :=
  mkTelegram _
    [ ("0C06", bcdRecord ValueInformation.EnergyWh 0 0 [0x50; 0x00; 0x00; 0x00] 15);
      ("8C1006", bcdRecord ValueInformation.EnergyWh 0 1 [0x05; 0x00; 0x00; 0x00] 21) ]
    [].

(** The power record of the source comment: [0C 2B], 26470 W.  Its
    decimal exponent brings the watts to the base unit of the quantity,
    the kilowatt, as the exponent of the [0C 05] energy records above
    brings their tenths of a kWh to the kWh. *)
Definition telegram_power : Telegram :=
  mkTelegram _
    [ ("0C2B", bcdRecord ValueInformation.PowerW (-3) 0 [0x70; 0x64; 0x02; 0x00] 30) ]
    [].

(** An instantaneous energy record of the current storage slot on the
    given tariff. *)
Definition energyAtTariff (tariff : Z) (e : DVEntry) : Prop :=
  hasKey MeasurementType.Instantaneous ValueInformation.EnergyWh 0 tariff e = true.
(** ** The shell hook: src/shell.cc *)

(** A cell of a [const char*] array: what [new const char*[n]] leaves in
    it, a pointer to the characters of a string, or the null pointer. *)
Inductive CString :=
| Indeterminate
| Str (s : string)
| NULL.

(** An argument of a printf-style message. *)
Inductive Arg :=
| AStr (s : string)
| AInt (n : Z).

(** What a process does that its surroundings can see: the log calls
    with their format and arguments, and the system calls with their
    arguments and what they gave back. *)
Inductive Event :=
| Debug (fmt : string) (args : list Arg)
| Warning (fmt : string) (args : list Arg)
| Error (fmt : string) (args : list Arg)
| Perror (msg : string)
| Fork (pid : Z)
| Close (fd : Z)
| Execvpe (file : string) (argv env : list CString)
| Waitpid (pid options status : Z).

(** How a call ends in the process that runs it: it returns, the process
    has become another program, the process was ended by [error], or the
    call left defined behaviour. *)
Inductive Outcome (A : Type) :=
| Returns (a : A)
| Replaced
| Terminated
| Undefined.
Arguments Returns {A} a.
Arguments Replaced {A}.
Arguments Terminated {A}.
Arguments Undefined {A}.

(** A computation: the events so far and how it ended. *)
Inductive Proc (A : Type) :=
| Run (trace : list Event) (outcome : Outcome A).
Arguments Run {A} trace outcome.

Definition trace {A} (p : Proc A) : list Event :=
  match p with Run tr _ => tr end.

Definition outcome {A} (p : Proc A) : Outcome A :=
  match p with Run _ o => o end.

#[global] Instance Proc_ret : MRet Proc := fun _ a => Run [] (Returns a).

(** The events [tr] happened before [p] ran. *)
Definition prepend {A} (tr : list Event) (p : Proc A) : Proc A :=
  match p with Run tr' o => Run (tr ++ tr') o end.

#[global] Instance Proc_bind : MBind Proc := fun A B f p =>
  match p with
  | Run tr (Returns a) => prepend tr (f a)
  | Run tr Replaced => Run tr Replaced
  | Run tr Terminated => Run tr Terminated
  | Run tr Undefined => Run tr Undefined
  end.

Definition emit (e : Event) : Proc unit := Run [e] (Returns tt).

(** What the system decides during one call: the value [fork] returns
    in the process at hand, whether [execvpe] starts the program, and
    what [status] holds once [waitpid] is back. *)
Record OS := mkOS {
  fork_result : Z;
  execvpe_starts : bool;
  waitpid_status : Z;
}.

Definition quote : string := String (Ascii.ascii_of_nat 34) EmptyString.
Definition newline : string := String (Ascii.ascii_of_nat 10) EmptyString.

(** The messages of [invokeShell]. *)
Definition fmt_exec : string := "exec " +:+ quote +:+ "%s" +:+ quote +:+ newline.
Definition fmt_arg : string := "arg " +:+ quote +:+ "%s" +:+ quote +:+ newline.
Definition fmt_env : string := "env " +:+ quote +:+ "%s" +:+ quote +:+ newline.
Definition fmt_exec_failed : string := "Invoking shell %s failed!" +:+ newline.
Definition fmt_fork_failed : string := "Could not fork!" +:+ newline.
Definition fmt_waiting : string := "waiting for child %d." +:+ newline.
Definition fmt_return_code : string := "%s: return code %d" +:+ newline.
Definition fmt_non_zero : string :=
  "%s exited with non-zero return code: %d" +:+ newline.

Definition debug (fmt : string) (args : list Arg) : Proc unit :=
  emit (Debug fmt args).

Definition warning (fmt : string) (args : list Arg) : Proc unit :=
  emit (Warning fmt args).

(** Modelled from the spec: [error] of util.h reports the message and is
    fatal to the process that calls it (sections 6 and 7); nothing after
    the call runs. *)
Definition error {A} (fmt : string) (args : list Arg) : Proc A :=
  Run [Error fmt args] Terminated.

Definition perror (msg : string) : Proc unit := emit (Perror msg).

Definition fork (os : OS) : Proc Z :=
  Run [Fork (fork_result os)] (Returns (fork_result os)).

Definition close (fd : Z) : Proc unit := emit (Close fd).

(** [execvpe] comes back, with -1, only when it could not start the
    program. *)
Definition execvpe (os : OS) (file : string) (argv env : list CString) : Proc Z :=
  Run [Execvpe file argv env]
      (if execvpe_starts os then Replaced else Returns (-1)).

(** [waitpid(pid, &status, options)]: without options the call comes back
    once the child has terminated; the value is what [status] holds
    then. *)
Definition waitpid (os : OS) (pid options : Z) : Proc Z :=
  Run [Waitpid pid options (waitpid_status os)] (Returns (waitpid_status os)).

(** [new const char*[n]]. *)
Definition newArray (n : nat) : list CString := replicate n Indeterminate.

(** [a[i] = v]; a store outside the array has no defined behaviour. *)
Definition store (a : list CString) (i : Z) (v : CString) : Proc (list CString) :=
  if decide (0 ≤ i < Z.of_nat (length a))
  then mret (<[Z.to_nat i := v]> a)
  else Run [] Undefined.

(** The two loops of [invokeShell],
<<
    for (auto &x : xs) { a[i] = x.c_str(); i++; debug(fmt, x.c_str()); }
>>
    with the array and [i] passed along.  [i] counts the strings written
    so far; the vectors are taken to be shorter than [INT_MAX], so that
    the [int] never overflows. *)
Fixpoint fill (fmt : string) (a : list CString) (i : Z) (xs : list string)
    : Proc (list CString * Z) :=
  match xs with
  | [] => mret (a, i)
  | x :: xs' =>
      a ← store a i (Str x);
      let i := i + 1 in
      _ ← debug fmt [AStr x];
      fill fmt a i xs'
  end.

Section InvokeShell.
(** The status macros of <wait.h> belong to the platform. *)
Variable WIFEXITED : Z → bool.
Variable WEXITSTATUS : Z → Z.

(** [invokeShell], lines 28 to 75. *)
Definition invokeShell (os : OS) (program : string) (args envs : list string)
    : Proc unit :=
  let argv := newArray (length args + 2) in
  argv ← store argv 0 (Str program);
  let i := 1 in
  _ ← debug fmt_exec [AStr program];
  '(argv, i) ← fill fmt_arg argv i args;
  argv ← store argv i NULL;
  let env := newArray (length envs + 1) in
  env ← store env 0 (Str program);
  let i := 0 in
  '(env, i) ← fill fmt_env env i envs;
  env ← store env i NULL;
  pid ← fork os;
  if decide (pid = 0) then
    _ ← close 0;
    _ ← execvpe os program argv env;
    _ ← perror "Execvp failed:";
    error fmt_exec_failed [AStr program]
  else
    _ ← (if decide (pid = -1)
         then error fmt_fork_failed []
         else mret tt);
    _ ← debug fmt_waiting [AInt pid];
    status ← waitpid os pid 0;
    if WIFEXITED status then
      let rc := WEXITSTATUS status in
      _ ← debug fmt_return_code [AStr program; AInt rc];
      if decide (rc ≠ 0)
      then warning fmt_non_zero [AStr program; AInt rc]
      else mret tt
    else mret tt.
End InvokeShell.

(** The status macros as glibc has them. *)
Definition glibc_WIFEXITED (status : Z) : bool :=
  bool_decide (Z.land status 0x7f = 0).
Definition glibc_WEXITSTATUS (status : Z) : Z :=
  Z.shiftr (Z.land status 0xff00) 8.

(** ** Reading a trace *)

(** The debug lines [invokeShell] writes while it builds the two arrays. *)
Definition announce (program : string) (args envs : list string) : list Event :=
  Debug fmt_exec [AStr program]
  :: ((λ a, Debug fmt_arg [AStr a]) <$> args)
  ++ ((λ e, Debug fmt_env [AStr e]) <$> envs).

(** What an operator gets to see of a trace without the debug level:
    warnings, errors and [perror] lines. *)
Definition isReport (e : Event) : bool :=
  match e with Warning _ _ | Error _ _ | Perror _ => true | _ => false end.

Definition reports (tr : list Event) : list Event := List.filter isReport tr.

(** The [execvpe] calls of a trace: file, argument array, environment
    array. *)
Definition execvpeCalls (tr : list Event)
    : list (string * list CString * list CString) :=
  omap (λ e, match e with
             | Execvpe file argv env => Some (file, argv, env)
             | _ => None
             end) tr.

(** The [waitpid] calls of a trace: the pid and the options. *)
Definition waitpidCalls (tr : list Event) : list (Z * Z) :=
  omap (λ e, match e with
             | Waitpid pid options _ => Some (pid, options)
             | _ => None
             end) tr.

(** ** Tables for the statements on annotations, outputs and system calls *)

(** The text [processContent] hands to [addMoreExplanation] in the block
    of each member. *)
Definition annotationText (f : Field) : string :=
  match f with
  | TotalEnergy => " total energy consumption (%f kWh)"
  | TotalVolume => " total volume (%f ㎥)"
  | VolumeFlowRate => " volume flow (%f ㎥/h)"
  | PowerNow => " power (%f W)"
  | FlowTemp => " flow temperature (%f °C)"
  | ReturnTemp => " return temperature (%f °C)"
  | TotalEnergyTariff1 => " total energy tariff 1 (%f kwh)"
  | OperatingSeconds => " operating time (%f seconds)"
  end.

(** The annotation a telegram gets for a member: none when the selector
    of the member finds no record, else the offset and the value that
    [extractDVdouble] yields for the record, under the text of the
    member. *)
Definition annotation `{DVParser} (t : Telegram) (f : Field)
    : option (Z * string * float) :=
  let s := selector f in
  key ← findKey (sel_type s) (sel_info s) (sel_storagenr s) (sel_tariff s)
        (values t);
  Some (fst (extractDVdouble (values t) key), annotationText f,
        snd (extractDVdouble (values t) key)).

(** What is asked of the output [p] that shows the member [f]: a pass
    over a telegram without a record for [f] does not change what the
    output answers, for any unit. *)
Definition unchangedWhenAbsent (p : Print) (f : Field) : Prop :=
  ∀ (parser : DVParser) (t : Telegram) (m : MeterSharkyTch) (u : Unit.t),
    decoded f t = None →
    print_getter p (fst (processContent t m)) u = print_getter p m u.

(** The system calls of a trace, in order, and the values [fork]
    returned in it. *)
Definition isSystemCall (e : Event) : bool :=
  match e with
  | Fork _ | Close _ | Execvpe _ _ _ | Waitpid _ _ _ => true
  | _ => false
  end.

Definition systemCalls (tr : list Event) : list Event :=
  List.filter isSystemCall tr.

Definition forkCalls (tr : list Event) : list Z :=
  omap (λ e, match e with Fork pid => Some pid | _ => None end) tr.

(** * Properties of the driver *)

Section Frame.
Context `{DVParser}.

Lemma block_values mt vi sn tf set get fmt (s : State) :
  values (snd (block mt vi sn tf set get fmt s)) = values (snd s).
Proof.
  destruct s as [m t]; unfold block; simpl.
  destruct (findKey mt vi sn tf (values t)) as [key|]; [|done].
  by destruct (extractDVdouble (values t) key).
Qed.

Lemma block_fst mt vi sn tf set get fmt (s : State) :
  fst (block mt vi sn tf set get fmt s) =
    match findKey mt vi sn tf (values (snd s)) with
    | Some key => set (snd (extractDVdouble (values (snd s)) key)) (fst s)
    | None => fst s
    end.
Proof.
  destruct s as [m t]; unfold block; simpl.
  destruct (findKey mt vi sn tf (values t)) as [key|]; [|done].
  by destruct (extractDVdouble (values t) key).
Qed.

Ltac split_on_findKey t :=
  repeat match goal with
         | |- context [findKey ?a ?b ?c ?d (values t)] =>
             destruct (findKey a b c d (values t)) as [?|]; simpl
         end.

(** Each member after one pass, read off the telegram. *)
Lemma member_processContent (t : Telegram) (m : MeterSharkyTch) (f : Field) :
  member f (fst (processContent t m)) = default (member f m) (decoded f t).
Proof.
  unfold processContent, decoded.
  rewrite !block_fst, !block_values; simpl.
  destruct f; simpl; split_on_findKey t; reflexivity.
Qed.

Lemma values_processContent (t : Telegram) (m : MeterSharkyTch) :
  values (snd (processContent t m)) = values t.
Proof. unfold processContent. by rewrite !block_values. Qed.

Lemma processAll_snoc (ts : list Telegram) (t : Telegram) (m : MeterSharkyTch) :
  processAll (ts ++ [t]) m = fst (processContent t (processAll ts m)).
Proof. unfold processAll. by rewrite foldl_app. Qed.

(** C1: for every telegram, every object and each of the eight members,
    [processContent] leaves the member as it was when the member's
    selector finds no record in the telegram, and overwrites it with
    the value decoded from the record found otherwise.  The records of
    the telegram and the rest of the object stay as they were, so a
    telegram with nothing but an energy record changes
    [total_energy_kwh_] and no other member. *)
Theorem processContent_frame (t : Telegram) (m : MeterSharkyTch) (f : Field) :
  member f (fst (processContent t m)) =
    match decoded f t with
    | Some v => v
    | None => member f m
    end
  ∧ keys (fst (processContent t m)) = keys m
  ∧ link_modes (fst (processContent t m)) = link_modes m
  ∧ values (snd (processContent t m)) = values t.
Proof.
  split; [|split; [|split]].
  - rewrite member_processContent. by destruct (decoded f t).
  - unfold processContent. rewrite !block_fst, !block_values; simpl.
    split_on_findKey t; reflexivity.
  - unfold processContent. rewrite !block_fst, !block_values; simpl.
    split_on_findKey t; reflexivity.
  - apply values_processContent.
Qed.

(** C5: in an object fresh from the constructor every member is zero,
    and after any run of telegrams a member holds the value decoded last
    for it; it is zero only while no telegram of the run carried a
    record for it, whatever the later telegrams leave out. *)
Theorem members_hold_last_decoded (ts : list Telegram) (f : Field) :
  member f (processAll ts new_MeterSharkyTch) =
    default 0%float (lastDecoded f ts).
Proof.
  unfold lastDecoded.
  induction ts as [|t ts IH] using rev_ind.
  - by destruct f.
  - rewrite processAll_snoc, member_processContent, IH, omap_app; simpl.
    destruct (decoded f t) as [v|]; simpl.
    + by rewrite last_snoc.
    + by rewrite app_nil_r.
Qed.
End Frame.

(** C3: each of the eight outputs answers a unit of another quantity
    than the one it was registered with by the contract violation, and
    the check that signals it is the quantity assertion of the accessor:
    the conversion behind it, which would signal its own, is not
    reached.  A unit of the output's own quantity is answered with the
    member converted from the native unit. *)
Theorem outputs_keep_quantity_contract : Forall2 quantityContract prints fields.
Proof.
  unfold prints, fields.
  repeat constructor; intros m u; destruct u; reflexivity.
Qed.

(** ** On the record index of the specification *)

(** The partial-update scenario of section 8: T1 brings energy and
    return temperature, T2 the energy alone. *)
Example decode_T1 :
  processAll [telegram_T1] new_MeterSharkyTch
  = addLinkMode T1
      (mkMeterSharkyTch 120.5 0 0 0 0 18.4 0 0 [] [])%float.
Proof. vm_compute. reflexivity. Qed.

Example decode_T1_T2 :
  let m := processAll [telegram_T1; telegram_T2] new_MeterSharkyTch in
  totalEnergyConsumption m Unit.KWH = Ok 121%float
  ∧ returnTemperature m Unit.C = Ok 18.4%float
  ∧ returnTemperature m Unit.KWH = ContractViolation QuantityAssertion.
Proof. vm_compute. repeat split; reflexivity. Qed.

Example T2_annotated :
  explanations (snd (processContent telegram_T2 new_MeterSharkyTch))
  = [(15, " total energy consumption (%f kWh)", 121%float)].
Proof. vm_compute. reflexivity. Qed.


Lemma findKeyIn_only mt vi sn tf (vs : Records) (k0 : string) (e0 : DVEntry) :
  (k0, e0) ∈ vs →
  hasKey mt vi sn tf e0 = true →
  (∀ k e, (k, e) ∈ vs → hasKey mt vi sn tf e = true → k = k0) →
  findKeyIn mt vi sn tf vs = Some k0.
Proof.
  induction vs as [|[k e] vs IH]; intros Hin Hkey Honly.
  - by apply elem_of_nil in Hin.
  - simpl. destruct (hasKey mt vi sn tf e) eqn:Hk.
    + f_equal. apply (Honly k e); [left | done].
    + apply elem_of_cons in Hin as [Heq|Hin]; [congruence|].
      apply IH; [done..|].
      intros k' e' Hin' Hk'. apply (Honly k' e'); [by right | done].
Qed.

Lemma entryAt_NoDup (vs : Records) (k : string) (e : DVEntry) :
  NoDup vs.*1 → (k, e) ∈ vs → entryAt k vs = Some e.
Proof.
  induction vs as [|[k' e'] vs IH]; intros Hnd Hin.
  - by apply elem_of_nil in Hin.
  - simpl in *. apply NoDup_cons in Hnd as [Hfresh Hnd].
    apply elem_of_cons in Hin as [Heq|Hin].
    + injection Heq as -> ->. by rewrite decide_True.
    + rewrite decide_False; [by apply IH|].
      intros ->. apply Hfresh.
      change k with (fst (k, e)). by apply list_elem_of_fmap_2.
Qed.

Lemma decoded_only (f : Field) (vs : Records) notes (k0 : string) (e0 : DVEntry) :
  NoDup vs.*1 →
  (k0, e0) ∈ vs →
  hasKey (sel_type (selector f)) (sel_info (selector f))
         (sel_storagenr (selector f)) (sel_tariff (selector f)) e0 = true →
  (∀ k e, (k, e) ∈ vs →
          hasKey (sel_type (selector f)) (sel_info (selector f))
                 (sel_storagenr (selector f)) (sel_tariff (selector f)) e = true →
          k = k0) →
  decoded f (mkTelegram _ vs notes) = Some (decode e0).
Proof.
  intros Hnd Hin Hkey Honly. unfold decoded; simpl.
  rewrite (findKeyIn_only _ _ _ _ vs k0 e0) by done. simpl.
  unfold extractDVdoubleIn. by rewrite (entryAt_NoDup vs k0 e0).
Qed.

(** C4: when a telegram holds one energy record on tariff 0 that decodes
    to 50 and one on tariff 1 that decodes to 5, [processContent] puts 50
    into [total_energy_kwh_] and 5 into [total_energy_tariff1_kwh_], and
    the outputs [total_energy_consumption] and
    [total_energy_consumption_tariff1] report 50 kWh and 5 kWh. *)
Theorem tariffs_not_conflated
    (vs : Records) (notes : list (Z * string * float)) (m : MeterSharkyTch)
    (k0 k1 : string) (e0 e1 : DVEntry) :
  NoDup vs.*1 →
  (k0, e0) ∈ vs → energyAtTariff 0 e0 → decode e0 = 50%float →
  (k1, e1) ∈ vs → energyAtTariff 1 e1 → decode e1 = 5%float →
  (∀ k e, (k, e) ∈ vs → energyAtTariff 0 e → k = k0) →
  (∀ k e, (k, e) ∈ vs → energyAtTariff 1 e → k = k1) →
  let m' := fst (processContent (mkTelegram _ vs notes) m) in
  total_energy_kwh_ m' = 50%float
  ∧ total_energy_tariff1_kwh_ m' = 5%float
  ∧ totalEnergyConsumption m' Unit.KWH = Ok 50%float
  ∧ totalEnergyConsumptionTariff1 m' Unit.KWH = Ok 5%float.
Proof.
  intros Hnd Hin0 Hat0 Hval0 Hin1 Hat1 Hval1 Honly0 Honly1 m'.
  assert (H0 : total_energy_kwh_ m' = 50%float).
  { change (member TotalEnergy m' = 50%float). subst m'.
    rewrite member_processContent.
    by rewrite (decoded_only TotalEnergy vs notes k0 e0). }
  assert (H1 : total_energy_tariff1_kwh_ m' = 5%float).
  { change (member TotalEnergyTariff1 m' = 5%float). subst m'.
    rewrite member_processContent.
    by rewrite (decoded_only TotalEnergyTariff1 vs notes k1 e1). }
  unfold totalEnergyConsumption, totalEnergyConsumptionTariff1.
  rewrite H0, H1. repeat split; reflexivity.
Qed.

Lemma tariffs_not_conflated_witness :
  let m' := fst (processContent telegram_tariffs new_MeterSharkyTch) in
  total_energy_kwh_ m' = 50%float
  ∧ total_energy_tariff1_kwh_ m' = 5%float
  ∧ totalEnergyConsumption m' Unit.KWH = Ok 50%float
  ∧ totalEnergyConsumptionTariff1 m' Unit.KWH = Ok 5%float.
Proof.
  apply (tariffs_not_conflated _ [] new_MeterSharkyTch "0C06" "8C1006"
           (bcdRecord ValueInformation.EnergyWh 0 0 [0x50; 0x00; 0x00; 0x00] 15)
           (bcdRecord ValueInformation.EnergyWh 0 1 [0x05; 0x00; 0x00; 0x00] 21)).
  - apply (bool_decide_unpack _). vm_compute. exact I.
  - repeat constructor.
  - reflexivity.
  - reflexivity.
  - repeat constructor.
  - reflexivity.
  - reflexivity.
  - intros k e Hin Hat.
    apply elem_of_cons in Hin as [Heq|Hin]; [by injection Heq|].
    apply list_elem_of_singleton in Hin. injection Hin as -> ->. discriminate.
  - intros k e Hin Hat.
    apply elem_of_cons in Hin as [Heq|Hin]; [injection Heq as -> ->; discriminate|].
    apply list_elem_of_singleton in Hin. by injection Hin.
Defined.

(** The power record of the source comment, decoded and read back: the
    member holds the power in kilowatts, whatever its name and the text
    of its annotation say. *)
Example decode_power :
  let '(m, t) := processContent telegram_power new_MeterSharkyTch in
  power_w_ m = 26.47%float
  ∧ explanations t = [(30, " power (%f W)", 26.47%float)]
  ∧ power m Unit.KW = Ok 26.47%float
  ∧ power m Unit.KWH = ContractViolation QuantityAssertion.
Proof. vm_compute. repeat split; reflexivity. Qed.

(** C2 as stated does not hold: [power] does not convert the member from
    watts.  After the power record above the member holds 26.47; asked
    for kilowatts [power] answers 26.47, where a conversion of the
    member from watts gives 0.02647. *)
Lemma power_not_converted_from_watts :
  ¬ (∀ (m : MeterSharkyTch) (u : Unit.t),
       Unit.quantity u = Quantity.Power →
       power m u = convert (power_w_ m) Unit.W u).
Proof.
  intros Hclaim.
  specialize (Hclaim (fst (processContent telegram_power new_MeterSharkyTch))
                     Unit.KW eq_refl).
  vm_compute in Hclaim. discriminate Hclaim.
Qed.

(** C2 (amended): for every unit of the quantity Power, [power] answers
    the member [power_w_] converted from [Unit::KW], the unit line 122
    names, to the unit asked for; and the member is the value
    [extractDVdouble] gave for the power record of the last pass, or
    what it was before when the telegram had none. *)
Theorem power_converts_from_kilowatts `{DVParser}
    (t : Telegram) (m : MeterSharkyTch) (u : Unit.t) :
  Unit.quantity u = Quantity.Power →
  power m u = convert (power_w_ m) Unit.KW u
  ∧ power (fst (processContent t m)) u =
      convert (default (power_w_ m) (decoded PowerNow t)) Unit.KW u.
Proof.
  intros Hpower.
  assert (Hread : ∀ m', power m' u = convert (power_w_ m') Unit.KW u).
  { intros m'. unfold power, assertQuantity.
    by rewrite decide_True. }
  split; [apply Hread|].
  rewrite Hread. f_equal.
  apply (member_processContent t m PowerNow).
Qed.

Lemma power_converts_from_kilowatts_witness :
  Unit.quantity Unit.W = Quantity.Power
  ∧ power new_MeterSharkyTch Unit.W
    = convert (power_w_ new_MeterSharkyTch) Unit.KW Unit.W
  ∧ power (fst (processContent telegram_power new_MeterSharkyTch)) Unit.W
    = convert 26.47%float Unit.KW Unit.W.
Proof.
  split; [reflexivity|].
  apply (power_converts_from_kilowatts telegram_power new_MeterSharkyTch Unit.W).
  reflexivity.
Defined.

(** * Properties of the shell hook *)

Lemma store_at (a : list CString) (i : nat) (v : CString) :
  (i < length a)%nat →
  store a (Z.of_nat i) v = Run [] (Returns (<[i := v]> a)).
Proof.
  intros Hi. unfold store.
  rewrite decide_True by lia. by rewrite Nat2Z.id.
Qed.

Lemma insert_behind (filled rest : list CString) (c v : CString) :
  <[length filled := v]> (filled ++ c :: rest) = filled ++ v :: rest.
Proof.
  replace (length filled) with (length filled + 0)%nat by lia.
  by rewrite insert_app_r.
Qed.

(** One loop: with [filled] cells behind [i] and at least one free cell
    for every string ahead, the loop writes the strings in order behind
    the filled cells, logs each, and leaves [i] after the last. *)
Lemma fill_run (fmt : string) (xs : list string) :
  ∀ (filled free : list CString),
    (length xs ≤ length free)%nat →
    fill fmt (filled ++ free) (Z.of_nat (length filled)) xs =
      Run ((λ x, Debug fmt [AStr x]) <$> xs)
          (Returns (filled ++ (Str <$> xs) ++ drop (length xs) free,
                    Z.of_nat (length filled + length xs))).
Proof.
  induction xs as [|x xs IH]; intros filled free Hlen; simpl.
  - by rewrite Nat.add_0_r.
  - destruct free as [|c free]; simpl in Hlen; [lia|].
    rewrite store_at by (rewrite length_app; simpl; lia).
    rewrite insert_behind. simpl.
    replace (Z.of_nat (length filled) + 1)
      with (Z.of_nat (length (filled ++ [Str x])))
      by (rewrite length_app; simpl; lia).
    replace (filled ++ Str x :: free) with ((filled ++ [Str x]) ++ free)
      by (by rewrite <- app_assoc).
    rewrite IH by lia. simpl.
    rewrite <- app_assoc, length_app. simpl.
    do 3 f_equal. lia.
Qed.

(** A loop followed by the store of the terminator, on an array with
    exactly one cell more than there are strings. *)
Lemma terminated_array (filled free : list CString) (xs : list string) :
  length free = S (length xs) →
  <[(length filled + length xs)%nat := NULL]>
    (filled ++ (Str <$> xs) ++ drop (length xs) free)
  = filled ++ (Str <$> xs) ++ [NULL].
Proof.
  intros Hlen.
  destruct (drop (length xs) free) as [|c rest] eqn:Hdrop.
  - apply (f_equal length) in Hdrop. rewrite length_drop in Hdrop.
    simpl in Hdrop. lia.
  - assert (rest = []) as ->.
    { apply (f_equal length) in Hdrop. rewrite length_drop in Hdrop.
      simpl in Hdrop. apply nil_length_inv. lia. }
    rewrite app_assoc.
    replace (length filled + length xs)%nat
      with (length (filled ++ (Str <$> xs)))
      by (by rewrite length_app, length_fmap).
    by rewrite insert_behind, <- app_assoc.
Qed.

Lemma bind_Returns {A B} (tr : list Event) (a : A) (f : A → Proc B) :
  Run tr (Returns a) ≫= f = prepend tr (f a).
Proof. reflexivity. Qed.

Lemma prepend_nil {A} (p : Proc A) : prepend [] p = p.
Proof. by destruct p. Qed.

Lemma prepend_prepend {A} (tr tr' : list Event) (p : Proc A) :
  prepend tr (prepend tr' p) = prepend (tr ++ tr') p.
Proof. destruct p; simpl. by rewrite app_assoc. Qed.

Lemma replicate_snoc (n : nat) (c : CString) :
  c :: replicate n c = replicate n c ++ [c].
Proof.
  change [c] with (replicate 1 c).
  by rewrite <- replicate_add, Nat.add_comm.
Qed.

(** The argument array after the loop over [args]. *)
Lemma argv_filled (program : string) (args : list string) :
  fill fmt_arg (<[0%nat := Str program]> (newArray (length args + 2))) 1 args =
    Run ((λ a, Debug fmt_arg [AStr a]) <$> args)
        (Returns ((Str program :: (Str <$> args)) ++ [Indeterminate],
                  Z.of_nat (length (Str program :: (Str <$> args))))).
Proof.
  unfold newArray. rewrite (Nat.add_comm (length args) 2).
  transitivity
    (fill fmt_arg ([Str program] ++ replicate (S (length args)) Indeterminate)
       (Z.of_nat (length [Str program])) args); [reflexivity|].
  rewrite fill_run by (rewrite length_replicate; lia).
  change (replicate (S (length args)) Indeterminate)
    with (Indeterminate :: replicate (length args) Indeterminate).
  rewrite replicate_snoc, drop_app_length' by (by rewrite length_replicate).
  simpl. by rewrite length_fmap.
Qed.

(** The environment array after the loop over [envs]: the loop starts at
    cell 0 again, where the program name was put. *)
Lemma env_filled (program : string) (envs : list string) :
  fill fmt_env (<[0%nat := Str program]> (newArray (length envs + 1))) 0 envs =
    Run ((λ e, Debug fmt_env [AStr e]) <$> envs)
        (Returns ((Str <$> envs)
                  ++ [if envs is [] then Str program else Indeterminate],
                  Z.of_nat (length (Str <$> envs)))).
Proof.
  unfold newArray. rewrite (Nat.add_comm (length envs) 1).
  transitivity
    (fill fmt_env ([] ++ Str program :: replicate (length envs) Indeterminate)
       (Z.of_nat (length (@nil CString))) envs); [reflexivity|].
  rewrite fill_run by (simpl; rewrite length_replicate; lia).
  rewrite length_fmap. simpl. destruct envs as [|e envs]; [reflexivity|].
  change (drop (length (e :: envs))
            (Str program :: replicate (length (e :: envs)) Indeterminate))
    with (drop (length envs) (Indeterminate :: replicate (length envs) Indeterminate)).
  rewrite replicate_snoc, drop_app_length' by (by rewrite length_replicate).
  reflexivity.
Qed.

Lemma store_last (cells : list CString) (c : CString) :
  store (cells ++ [c]) (Z.of_nat (length cells)) NULL =
    Run [] (Returns (cells ++ [NULL])).
Proof.
  rewrite store_at by (rewrite length_app; simpl; lia).
  by rewrite insert_behind.
Qed.

(** The calls of [invokeShell] up to [fork], carried out. *)
Ltac build_arrays program args envs :=
  unfold invokeShell; cbv zeta;
  rewrite (store_at (newArray (length args + 2)) 0),
          (store_at (newArray (length envs + 1)) 0)
    by (unfold newArray; rewrite length_replicate; lia);
  rewrite bind_Returns, prepend_nil;
  change (debug fmt_exec [AStr program])
    with (Run [Debug fmt_exec [AStr program]] (Returns ()));
  rewrite bind_Returns;
  rewrite argv_filled, bind_Returns; cbv beta iota;
  rewrite store_last, bind_Returns, prepend_nil;
  rewrite bind_Returns, prepend_nil;
  rewrite env_filled, bind_Returns; cbv beta iota;
  rewrite store_last, bind_Returns, prepend_nil;
  rewrite !prepend_prepend;
  change (([Debug fmt_exec [AStr program]]
           ++ ((λ a, Debug fmt_arg [AStr a]) <$> args))
          ++ ((λ e, Debug fmt_env [AStr e]) <$> envs))
    with (announce program args envs);
  unfold fork; rewrite bind_Returns.

Lemma reports_announce program args envs tr :
  reports (announce program args envs ++ tr) = reports tr.
Proof.
  unfold reports, announce. simpl. rewrite !List.filter_app.
  assert (Hnone : ∀ fmt (xs : list string),
             List.filter isReport ((λ x, Debug fmt [AStr x]) <$> xs) = []).
  { intros fmt xs. induction xs as [|x xs IH]; [done | exact IH]. }
  by rewrite !Hnone.
Qed.

Lemma execvpeCalls_announce program args envs tr :
  execvpeCalls (announce program args envs ++ tr) = execvpeCalls tr.
Proof.
  unfold execvpeCalls, announce. simpl. rewrite !omap_app.
  assert (Hnone : ∀ fmt (xs : list string),
             omap (λ e, match e with
                        | Execvpe file argv env => Some (file, argv, env)
                        | _ => None
                        end) ((λ x, Debug fmt [AStr x]) <$> xs) = []).
  { intros fmt xs. induction xs as [|x xs IH]; [done | exact IH]. }
  by rewrite !Hnone.
Qed.

Lemma waitpidCalls_announce program args envs tr :
  waitpidCalls (announce program args envs ++ tr) = waitpidCalls tr.
Proof.
  unfold waitpidCalls, announce. simpl. rewrite !omap_app.
  assert (Hnone : ∀ fmt (xs : list string),
             omap (λ e, match e with
                        | Waitpid pid options _ => Some (pid, options)
                        | _ => None
                        end) ((λ x, Debug fmt [AStr x]) <$> xs) = []).
  { intros fmt xs. induction xs as [|x xs IH]; [done | exact IH]. }
  by rewrite !Hnone.
Qed.

Section InvokeShellRuns.
Variable WIFEXITED : Z → bool.
Variable WEXITSTATUS : Z → Z.

(** The process [fork] returns 0 to: the child. *)
Lemma invokeShell_child os program args envs :
  fork_result os = 0 →
  invokeShell WIFEXITED WEXITSTATUS os program args envs =
    Run (announce program args envs
         ++ Fork 0 :: Close 0
            :: Execvpe program (Str program :: (Str <$> args) ++ [NULL])
                       ((Str <$> envs) ++ [NULL])
            :: (if execvpe_starts os then []
                else [Perror "Execvp failed:";
                      Error fmt_exec_failed [AStr program]]))
        (if execvpe_starts os then Replaced else Terminated).
Proof.
  intros Hpid. build_arrays program args envs.
  rewrite Hpid, decide_True by done.
  unfold close, execvpe, perror, error, emit.
  destruct (execvpe_starts os); reflexivity.
Qed.

(** The process [fork] returns -1 to: there is no child. *)
Lemma invokeShell_fork_failed os program args envs :
  fork_result os = -1 →
  invokeShell WIFEXITED WEXITSTATUS os program args envs =
    Run (announce program args envs ++ [Fork (-1); Error fmt_fork_failed []])
        Terminated.
Proof.
  intros Hpid. build_arrays program args envs.
  rewrite Hpid, decide_False, decide_True by done.
  reflexivity.
Qed.

(** The process [fork] returns the pid of the child to: the parent. *)
Lemma invokeShell_parent os program args envs :
  fork_result os ≠ 0 → fork_result os ≠ -1 →
  invokeShell WIFEXITED WEXITSTATUS os program args envs =
    Run (announce program args envs
         ++ Fork (fork_result os)
            :: Debug fmt_waiting [AInt (fork_result os)]
            :: Waitpid (fork_result os) 0 (waitpid_status os)
            :: (if WIFEXITED (waitpid_status os)
                then Debug fmt_return_code
                       [AStr program; AInt (WEXITSTATUS (waitpid_status os))]
                     :: (if decide (WEXITSTATUS (waitpid_status os) ≠ 0)
                         then [Warning fmt_non_zero
                                 [AStr program;
                                  AInt (WEXITSTATUS (waitpid_status os))]]
                         else [])
                else []))
        (Returns tt).
Proof.
  intros Hchild Hfork. build_arrays program args envs.
  rewrite !decide_False by done.
  unfold debug, waitpid, warning, emit. simpl.
  destruct (WIFEXITED (waitpid_status os)); [|reflexivity].
  destruct (decide (WEXITSTATUS (waitpid_status os) ≠ 0)); reflexivity.
Qed.
End InvokeShellRuns.

Section InvokeShellClaims.
Variable WIFEXITED : Z → bool.
Variable WEXITSTATUS : Z → Z.

(** C6: every call forks after the two arrays are built.  In the child
    the next two calls are [close(0)] and then [execvpe] of the program
    with the argument array of [program] and [args] and the environment
    array of [envs]; the parent comes back from [invokeShell] only with
    [waitpid] on the child's pid, without options, behind it. *)
Theorem child_spawned_and_awaited os program args envs :
  let r := invokeShell WIFEXITED WEXITSTATUS os program args envs in
  (fork_result os = 0 →
   ∃ rest,
     trace r =
       announce program args envs
       ++ Fork 0 :: Close 0
          :: Execvpe program (Str program :: (Str <$> args) ++ [NULL])
                     ((Str <$> envs) ++ [NULL])
          :: rest)
  ∧ (fork_result os ≠ 0 → outcome r = Returns tt →
     ∃ rest,
       trace r =
         announce program args envs
         ++ Fork (fork_result os)
            :: Debug fmt_waiting [AInt (fork_result os)]
            :: Waitpid (fork_result os) 0 (waitpid_status os)
            :: rest).
Proof.
  split.
  - intros Hpid. rewrite invokeShell_child by done.
    eexists. reflexivity.
  - intros Hpid Hret.
    destruct (decide (fork_result os = -1)) as [Hfail|Hok].
    + rewrite invokeShell_fork_failed in Hret by done. discriminate.
    + rewrite invokeShell_parent by done.
      eexists. reflexivity.
Qed.

(** C7: when the child was created and ended by exiting, the parent
    returns from [invokeShell]; what it reports is one warning with the
    program and the return code when the code is not zero, and nothing
    when it is zero. *)
Theorem nonzero_exit_warns_once os program args envs :
  0 < fork_result os →
  WIFEXITED (waitpid_status os) = true →
  let r := invokeShell WIFEXITED WEXITSTATUS os program args envs in
  let rc := WEXITSTATUS (waitpid_status os) in
  outcome r = Returns tt
  ∧ reports (trace r) =
      if decide (rc = 0) then []
      else [Warning fmt_non_zero [AStr program; AInt rc]].
Proof.
  intros Hpid Hexited r rc. subst r rc.
  rewrite invokeShell_parent by lia.
  split; [reflexivity|]. cbn [trace].
  rewrite reports_announce, Hexited. simpl.
  destruct (decide (WEXITSTATUS (waitpid_status os) = 0)) as [Hz|Hnz].
  - by rewrite decide_False by (intros Hne; apply Hne, Hz).
  - by rewrite decide_True.
Qed.

(** C8 (amended): when [fork] fails the caller logs the error and is
    terminated by it, before any [waitpid]: [invokeShell] does not
    return.  When [execvpe] fails, it fails in the forked child: the
    child logs [perror] and the error and is terminated by it, and does
    not return either.  The process that called [invokeShell] and got a
    child is never terminated: it returns, whether or not the program
    could be executed, and reports at most the warning about a non-zero
    exit. *)
Theorem spawn_failure_outcomes os program args envs :
  let r := invokeShell WIFEXITED WEXITSTATUS os program args envs in
  let rc := WEXITSTATUS (waitpid_status os) in
  (fork_result os = -1 →
   outcome r = Terminated
   ∧ last (trace r) = Some (Error fmt_fork_failed [])
   ∧ waitpidCalls (trace r) = [])
  ∧ (fork_result os = 0 → execvpe_starts os = false →
     outcome r = Terminated
     ∧ ∃ before,
         trace r =
           before ++ [Perror "Execvp failed:";
                      Error fmt_exec_failed [AStr program]])
  ∧ (0 < fork_result os →
     outcome r = Returns tt
     ∧ reports (trace r) =
         if WIFEXITED (waitpid_status os) && negb (bool_decide (rc = 0))
         then [Warning fmt_non_zero [AStr program; AInt rc]]
         else []).
Proof.
  split; [|split].
  - intros Hpid. rewrite invokeShell_fork_failed by done. cbn [trace outcome].
    split; [reflexivity|]. split.
    + change [Fork (-1); Error fmt_fork_failed []]
        with ([Fork (-1)] ++ [Error fmt_fork_failed []]).
      by rewrite app_assoc, last_snoc.
    + by rewrite waitpidCalls_announce.
  - intros Hpid Hexec. rewrite invokeShell_child by done.
    rewrite Hexec. cbn [trace outcome]. split; [reflexivity|].
    exists (announce program args envs
            ++ [Fork 0; Close 0;
                Execvpe program (Str program :: (Str <$> args) ++ [NULL])
                        ((Str <$> envs) ++ [NULL])]).
    by rewrite <- app_assoc.
  - intros Hpid. rewrite invokeShell_parent by lia. cbn [trace outcome].
    split; [reflexivity|].
    rewrite reports_announce.
    destruct (WIFEXITED (waitpid_status os)); [|reflexivity].
    destruct (decide (WEXITSTATUS (waitpid_status os) = 0)) as [Hz|Hnz].
    + rewrite decide_False by (intros Hne; apply Hne, Hz).
      by rewrite bool_decide_eq_true_2.
    + rewrite decide_True by done.
      by rewrite bool_decide_eq_false_2.
Qed.

(** C9: [execvpe] is called in the child and nowhere else, once, with the
    array [program, args..., NULL] and the array [envs..., NULL]; the
    program name put into cell 0 of the environment array is gone by
    then, whether or not [envs] is empty. *)
Theorem execvpe_vectors os program args envs :
  execvpeCalls (trace (invokeShell WIFEXITED WEXITSTATUS os program args envs)) =
    if decide (fork_result os = 0)
    then [(program,
           Str program :: (Str <$> args) ++ [NULL],
           (Str <$> envs) ++ [NULL])]
    else [].
Proof.
  destruct (decide (fork_result os = 0)) as [Hchild|Hnot].
  - rewrite invokeShell_child by done. cbn [trace].
    rewrite execvpeCalls_announce.
    by destruct (execvpe_starts os).
  - destruct (decide (fork_result os = -1)) as [Hfail|Hok].
    + rewrite invokeShell_fork_failed by done. cbn [trace].
      by rewrite execvpeCalls_announce.
    + rewrite invokeShell_parent by done. cbn [trace].
      rewrite execvpeCalls_announce.
      destruct (WIFEXITED (waitpid_status os)); [|done].
      by destruct (decide (WEXITSTATUS (waitpid_status os) ≠ 0)).
Qed.

(** C10: when the child was created and did not end by exiting, the
    parent returns from [invokeShell] and reports nothing, neither a
    warning nor an error: the same return and the same reports as after
    a child that exited with code zero. *)
Theorem abnormal_end_is_silent os program args envs :
  0 < fork_result os →
  WIFEXITED (waitpid_status os) = false →
  let r := invokeShell WIFEXITED WEXITSTATUS os program args envs in
  outcome r = Returns tt
  ∧ reports (trace r) = []
  ∧ ∀ os0,
      fork_result os0 = fork_result os →
      WIFEXITED (waitpid_status os0) = true →
      WEXITSTATUS (waitpid_status os0) = 0 →
      let r0 := invokeShell WIFEXITED WEXITSTATUS os0 program args envs in
      outcome r0 = outcome r ∧ reports (trace r0) = reports (trace r).
Proof.
  intros Hpid Hnot r.
  assert (Hr : outcome r = Returns tt ∧ reports (trace r) = []).
  { subst r. rewrite invokeShell_parent by lia. split; [reflexivity|].
    cbn [trace]. by rewrite reports_announce, Hnot. }
  destruct Hr as [Hout Hrep]. split; [done|]. split; [done|].
  intros os0 Hsame Hexited Hzero r0. rewrite Hout, Hrep. subst r0.
  rewrite invokeShell_parent by lia. split; [reflexivity|].
  cbn [trace]. rewrite reports_announce, Hexited, Hzero.
  by rewrite decide_False by (intros Hne; by apply Hne).
Qed.
End InvokeShellClaims.

(** ** Concrete runs, with the status macros of glibc *)

Example run_child_exec_fails :
  invokeShell glibc_WIFEXITED glibc_WEXITSTATUS (mkOS 0 false 0)
    "notify" ["-m"; "telegram"] ["METER_ID=12345678"]
  = Run [ Debug fmt_exec [AStr "notify"];
          Debug fmt_arg [AStr "-m"]; Debug fmt_arg [AStr "telegram"];
          Debug fmt_env [AStr "METER_ID=12345678"];
          Fork 0; Close 0;
          Execvpe "notify" [Str "notify"; Str "-m"; Str "telegram"; NULL]
                  [Str "METER_ID=12345678"; NULL];
          Perror "Execvp failed:";
          Error fmt_exec_failed [AStr "notify"] ]
        Terminated.
Proof. reflexivity. Qed.

Example run_parent_exit_2 :
  invokeShell glibc_WIFEXITED glibc_WEXITSTATUS (mkOS 4711 true 512)
    "notify" [] []
  = Run [ Debug fmt_exec [AStr "notify"];
          Fork 4711; Debug fmt_waiting [AInt 4711]; Waitpid 4711 0 512;
          Debug fmt_return_code [AStr "notify"; AInt 2];
          Warning fmt_non_zero [AStr "notify"; AInt 2] ]
        (Returns tt).
Proof. reflexivity. Qed.

Lemma child_spawned_and_awaited_witness :
  (∃ rest,
     trace (invokeShell glibc_WIFEXITED glibc_WEXITSTATUS (mkOS 0 true 0)
              "notify" ["-m"] ["METER_ID=12345678"]) =
       announce "notify" ["-m"] ["METER_ID=12345678"]
       ++ Fork 0 :: Close 0
          :: Execvpe "notify" [Str "notify"; Str "-m"; NULL]
                     [Str "METER_ID=12345678"; NULL]
          :: rest)
  ∧ (∃ rest,
       trace (invokeShell glibc_WIFEXITED glibc_WEXITSTATUS (mkOS 4711 true 0)
                "notify" ["-m"] ["METER_ID=12345678"]) =
         announce "notify" ["-m"] ["METER_ID=12345678"]
         ++ Fork 4711 :: Debug fmt_waiting [AInt 4711]
            :: Waitpid 4711 0 0 :: rest).
Proof.
  split.
  - apply (child_spawned_and_awaited glibc_WIFEXITED glibc_WEXITSTATUS
             (mkOS 0 true 0) "notify" ["-m"] ["METER_ID=12345678"]).
    reflexivity.
  - apply (child_spawned_and_awaited glibc_WIFEXITED glibc_WEXITSTATUS
             (mkOS 4711 true 0) "notify" ["-m"] ["METER_ID=12345678"]).
    + simpl. lia.
    + reflexivity.
Defined.

Lemma nonzero_exit_warns_once_witness :
  0 < fork_result (mkOS 4711 true 512)
  ∧ glibc_WIFEXITED (waitpid_status (mkOS 4711 true 512)) = true
  ∧ outcome (invokeShell glibc_WIFEXITED glibc_WEXITSTATUS (mkOS 4711 true 512)
               "notify" ["-m"] []) = Returns tt
  ∧ reports (trace (invokeShell glibc_WIFEXITED glibc_WEXITSTATUS
                      (mkOS 4711 true 512) "notify" ["-m"] []))
    = [Warning fmt_non_zero [AStr "notify"; AInt 2]].
Proof.
  split; [simpl; lia|]. split; [reflexivity|].
  apply (nonzero_exit_warns_once glibc_WIFEXITED glibc_WEXITSTATUS
           (mkOS 4711 true 512) "notify" ["-m"] []).
  - simpl. lia.
  - reflexivity.
Defined.

Lemma spawn_failure_outcomes_witness :
  (outcome (invokeShell glibc_WIFEXITED glibc_WEXITSTATUS (mkOS (-1) true 0)
              "notify" ["-m"] []) = Terminated
   ∧ last (trace (invokeShell glibc_WIFEXITED glibc_WEXITSTATUS
                    (mkOS (-1) true 0) "notify" ["-m"] []))
     = Some (Error fmt_fork_failed [])
   ∧ waitpidCalls (trace (invokeShell glibc_WIFEXITED glibc_WEXITSTATUS
                            (mkOS (-1) true 0) "notify" ["-m"] [])) = [])
  ∧ (outcome (invokeShell glibc_WIFEXITED glibc_WEXITSTATUS (mkOS 0 false 0)
                "notify" ["-m"] []) = Terminated
     ∧ ∃ before,
         trace (invokeShell glibc_WIFEXITED glibc_WEXITSTATUS
                  (mkOS 0 false 0) "notify" ["-m"] [])
         = before ++ [Perror "Execvp failed:";
                      Error fmt_exec_failed [AStr "notify"]])
  ∧ (outcome (invokeShell glibc_WIFEXITED glibc_WEXITSTATUS (mkOS 4711 false 256)
                "notify" ["-m"] []) = Returns tt
     ∧ reports (trace (invokeShell glibc_WIFEXITED glibc_WEXITSTATUS
                         (mkOS 4711 false 256) "notify" ["-m"] []))
       = [Warning fmt_non_zero [AStr "notify"; AInt 1]]).
Proof.
  split; [|split].
  - apply (spawn_failure_outcomes glibc_WIFEXITED glibc_WEXITSTATUS
             (mkOS (-1) true 0) "notify" ["-m"] []).
    reflexivity.
  - apply (spawn_failure_outcomes glibc_WIFEXITED glibc_WEXITSTATUS
             (mkOS 0 false 0) "notify" ["-m"] []).
    + reflexivity.
    + reflexivity.
  - apply (spawn_failure_outcomes glibc_WIFEXITED glibc_WEXITSTATUS
             (mkOS 4711 false 256) "notify" ["-m"] []).
    simpl. lia.
Defined.

(** C8 as stated does not hold of the process that called [invokeShell]:
    with a child that cannot execute the program and leaves with exit
    code 1, the caller returns from [invokeShell]. *)
Lemma exec_failure_not_fatal_to_caller :
  ¬ (∀ (os : OS) (program : string) (args envs : list string),
       execvpe_starts os = false →
       outcome (invokeShell glibc_WIFEXITED glibc_WEXITSTATUS
                  os program args envs) ≠ Returns tt).
Proof.
  intros Hclaim.
  apply (Hclaim (mkOS 4711 false 256) "notify" ["-m"] []); reflexivity.
Qed.

Lemma abnormal_end_is_silent_witness :
  0 < fork_result (mkOS 4711 true 9)
  ∧ glibc_WIFEXITED (waitpid_status (mkOS 4711 true 9)) = false
  ∧ outcome (invokeShell glibc_WIFEXITED glibc_WEXITSTATUS (mkOS 4711 true 9)
               "notify" ["-m"] []) = Returns tt
  ∧ reports (trace (invokeShell glibc_WIFEXITED glibc_WEXITSTATUS
                      (mkOS 4711 true 9) "notify" ["-m"] [])) = []
  ∧ outcome (invokeShell glibc_WIFEXITED glibc_WEXITSTATUS (mkOS 4711 true 0)
               "notify" ["-m"] [])
    = outcome (invokeShell glibc_WIFEXITED glibc_WEXITSTATUS (mkOS 4711 true 9)
                 "notify" ["-m"] [])
  ∧ reports (trace (invokeShell glibc_WIFEXITED glibc_WEXITSTATUS
                      (mkOS 4711 true 0) "notify" ["-m"] []))
    = reports (trace (invokeShell glibc_WIFEXITED glibc_WEXITSTATUS
                        (mkOS 4711 true 9) "notify" ["-m"] [])).
Proof.
  split; [simpl; lia|]. split; [reflexivity|].
  destruct (abnormal_end_is_silent glibc_WIFEXITED glibc_WEXITSTATUS
              (mkOS 4711 true 9) "notify" ["-m"] [])
    as (Hout & Hrep & Hsame).
  - simpl. lia.
  - reflexivity.
  - split; [exact Hout|]. split; [exact Hrep|].
    apply (Hsame (mkOS 4711 true 0)); reflexivity.
Defined.

(** * Further properties of the driver *)

Lemma meter_ext (m m' : MeterSharkyTch) :
  (∀ f, member f m = member f m') →
  keys m = keys m' → link_modes m = link_modes m' → m = m'.
Proof.
  intros Hmem Hkeys Hmodes. destruct m, m'; simpl in *.
  pose proof (Hmem TotalEnergy). pose proof (Hmem TotalVolume).
  pose proof (Hmem VolumeFlowRate). pose proof (Hmem PowerNow).
  pose proof (Hmem FlowTemp). pose proof (Hmem ReturnTemp).
  pose proof (Hmem TotalEnergyTariff1). pose proof (Hmem OperatingSeconds).
  simpl in *. congruence.
Qed.

Section Passes.
Context `{DVParser}.

Ltac split_on_keys t :=
  repeat match goal with
         | |- context [findKey ?a ?b ?c ?d (values t)] =>
             destruct (findKey a b c d (values t)) as [?|]; simpl
         end.

Lemma rest_processContent (t : Telegram) (m : MeterSharkyTch) :
  keys (fst (processContent t m)) = keys m
  ∧ link_modes (fst (processContent t m)) = link_modes m.
Proof.
  unfold processContent. rewrite !block_fst, !block_values; simpl.
  split; split_on_keys t; reflexivity.
Qed.

Lemma decoded_None (f : Field) (t : Telegram) :
  decoded f t = None →
  findKey (sel_type (selector f)) (sel_info (selector f))
          (sel_storagenr (selector f)) (sel_tariff (selector f)) (values t)
  = None.
Proof.
  unfold decoded. simpl.
  by destruct (findKey _ _ _ _ (values t)).
Qed.

Lemma block_explanations mt vi sn tf set get fmt (s : State) :
  explanations (snd (block mt vi sn tf set get fmt s)) =
    explanations (snd s)
    ++ match findKey mt vi sn tf (values (snd s)) with
       | Some key =>
           [(fst (extractDVdouble (values (snd s)) key), fmt,
             get (set (snd (extractDVdouble (values (snd s)) key)) (fst s)))]
       | None => []
       end.
Proof.
  destruct s as [m t]; unfold block; simpl.
  destruct (findKey mt vi sn tf (values t)) as [key|];
    [|by rewrite app_nil_r].
  by destruct (extractDVdouble (values t) key).
Qed.

(** X1: a pass over a telegram in which none of the eight selectors finds
    a record gives back the object and the telegram as they were: no
    member is written and no annotation is attached. *)
Theorem processContent_nothing_found (t : Telegram) (m : MeterSharkyTch) :
  (∀ f, decoded f t = None) → processContent t m = (m, t).
Proof.
  intros Hnone.
  pose proof (decoded_None TotalEnergy t (Hnone _)) as H1.
  pose proof (decoded_None TotalVolume t (Hnone _)) as H2.
  pose proof (decoded_None VolumeFlowRate t (Hnone _)) as H3.
  pose proof (decoded_None PowerNow t (Hnone _)) as H4.
  pose proof (decoded_None FlowTemp t (Hnone _)) as H5.
  pose proof (decoded_None ReturnTemp t (Hnone _)) as H6.
  pose proof (decoded_None TotalEnergyTariff1 t (Hnone _)) as H7.
  pose proof (decoded_None OperatingSeconds t (Hnone _)) as H8.
  simpl in *. unfold processContent, block.
  by rewrite H1, H2, H3, H4, H5, H6, H7, H8.
Qed.

(** X2: a pass keeps the annotations the telegram has and appends one for
    each member whose selector finds a record, in the order of the
    blocks; the annotation carries the offset of the record, the text of
    the member and the value stored into the member. *)
Theorem processContent_annotations (t : Telegram) (m : MeterSharkyTch) :
  explanations (snd (processContent t m)) =
    explanations t ++ omap (annotation t) fields.
Proof.
  unfold processContent.
  rewrite !block_explanations, !block_values. simpl.
  unfold annotation. simpl.
  rewrite <- !app_assoc. f_equal.
  split_on_keys t; reflexivity.
Qed.
End Passes.

Section Runs.
Context `{DVParser}.

Lemma processAll_cons (t : Telegram) (ts : list Telegram) (m : MeterSharkyTch) :
  processAll (t :: ts) m = processAll ts (fst (processContent t m)).
Proof. reflexivity. Qed.

Lemma member_processAll (ts : list Telegram) (m : MeterSharkyTch) (f : Field) :
  member f (processAll ts m) = default (member f m) (lastDecoded f ts).
Proof.
  unfold lastDecoded.
  induction ts as [|t ts IH] using rev_ind; [done|].
  rewrite processAll_snoc, member_processContent, IH, omap_app; simpl.
  destruct (decoded f t) as [v|]; simpl.
  - by rewrite last_snoc.
  - by rewrite app_nil_r.
Qed.

Lemma rest_processAll (ts : list Telegram) (m : MeterSharkyTch) :
  keys (processAll ts m) = keys m
  ∧ link_modes (processAll ts m) = link_modes m.
Proof.
  revert m. induction ts as [|t ts IH]; intros m; [done|].
  rewrite processAll_cons.
  destruct (IH (fst (processContent t m))) as [-> ->].
  apply rest_processContent.
Qed.

(** X3: a telegram delivered twice changes the object no further than
    the first delivery did. *)
Theorem processContent_idempotent (t : Telegram) (m : MeterSharkyTch) :
  fst (processContent t (fst (processContent t m))) = fst (processContent t m).
Proof.
  apply meter_ext.
  - intros f. rewrite !member_processContent.
    by destruct (decoded f t).
  - apply rest_processContent.
  - apply rest_processContent.
Qed.

(** X4: two telegrams that carry records for different members can be
    decoded in either order: when no member has a record in both, the
    object after [t1] then [t2] is the object after [t2] then [t1]. *)
Theorem disjoint_telegrams_commute (t1 t2 : Telegram) (m : MeterSharkyTch) :
  (∀ f, decoded f t1 = None ∨ decoded f t2 = None) →
  processAll [t1; t2] m = processAll [t2; t1] m.
Proof.
  intros Hdisjoint. apply meter_ext.
  - intros f. simpl. rewrite !member_processContent.
    destruct (Hdisjoint f) as [-> | ->]; simpl;
      by destruct (decoded f t1), (decoded f t2).
  - destruct (rest_processAll [t1; t2] m) as [-> _].
    by destruct (rest_processAll [t2; t1] m) as [-> _].
  - destruct (rest_processAll [t1; t2] m) as [_ ->].
    by destruct (rest_processAll [t2; t1] m) as [_ ->].
Qed.

(** X5: after a run of telegrams over any object, a member holds the
    value decoded last for it, or what it held before the run when no
    telegram carried it; the link modes and [keys] are those of the
    start. *)
Theorem run_keeps_last_decoded (ts : list Telegram) (m : MeterSharkyTch) :
  (∀ f, member f (processAll ts m) = default (member f m) (lastDecoded f ts))
  ∧ keys (processAll ts m) = keys m
  ∧ link_modes (processAll ts m) = link_modes m.
Proof.
  split; [|apply rest_processAll].
  intros f. apply member_processAll.
Qed.

(** X6: a telegram that carries a record for every member an earlier
    telegram carried one for supersedes it: the object after both is the
    object after the later one alone. *)
Theorem later_telegram_supersedes (t1 t2 : Telegram) (m : MeterSharkyTch) :
  (∀ f, is_Some (decoded f t1) → is_Some (decoded f t2)) →
  processAll [t1; t2] m = processAll [t2] m.
Proof.
  intros Hcovers. apply meter_ext.
  - intros f. simpl. rewrite !member_processContent.
    destruct (decoded f t2) as [v2|] eqn:H2; [done|].
    destruct (decoded f t1) as [v1|] eqn:H1; [|done].
    destruct (Hcovers f) as [v Hv]; [by eexists|].
    congruence.
  - destruct (rest_processAll [t1; t2] m) as [-> _].
    by destruct (rest_processAll [t2] m) as [-> _].
  - destruct (rest_processAll [t1; t2] m) as [_ ->].
    by destruct (rest_processAll [t2] m) as [_ ->].
Qed.
End Runs.

(** X7: each of the eight outputs answers after a pass over a telegram
    without a record for its member exactly what it answered before,
    for every unit, the contract violation included. *)
Theorem outputs_unchanged_when_absent : Forall2 unchangedWhenAbsent prints fields.
Proof.
  unfold prints, fields.
  repeat constructor; intros parser t m u Habsent; simpl;
    match goal with
    | Habsent : decoded ?f t = None |- _ =>
        pose proof (member_processContent t m f) as Hm;
        rewrite Habsent in Hm; simpl in Hm
    end.
  - unfold totalEnergyConsumption. by rewrite Hm.
  - unfold totalVolume. by rewrite Hm.
  - unfold volumeFlow. by rewrite Hm.
  - unfold power. by rewrite Hm.
  - unfold flowTemperature. by rewrite Hm.
  - unfold returnTemperature. by rewrite Hm.
  - unfold totalEnergyConsumptionTariff1. by rewrite Hm.
  - unfold operatingTime. by rewrite Hm.
Qed.

(** ** One record, one member *)

Lemma changed_member_has_record (k : string) (e : DVEntry)
    (notes : list (Z * string * float)) (m : MeterSharkyTch) (f : Field) :
  member f (fst (processContent (mkTelegram _ [(k, e)] notes) m)) ≠ member f m →
  hasKey (sel_type (selector f)) (sel_info (selector f))
         (sel_storagenr (selector f)) (sel_tariff (selector f)) e = true.
Proof.
  rewrite member_processContent. unfold decoded; simpl.
  destruct (hasKey _ _ _ _ e); [done|]. simpl. by intros [].
Qed.

(** X8: the eight selectors tell the members apart: a telegram of one
    record changes at most one member of the object. *)
Theorem one_record_one_member (k : string) (e : DVEntry)
    (notes : list (Z * string * float)) (m : MeterSharkyTch) (f g : Field) :
  let m' := fst (processContent (mkTelegram _ [(k, e)] notes) m) in
  member f m' ≠ member f m → member g m' ≠ member g m → f = g.
Proof.
  intros m' Hf Hg.
  apply changed_member_has_record in Hf.
  apply changed_member_has_record in Hg.
  unfold hasKey in Hf, Hg.
  repeat match goal with
         | H : _ && _ = true |- _ => apply andb_true_iff in H as [? ?]
         | H : bool_decide _ = true |- _ => apply bool_decide_eq_true in H
         end.
  destruct f, g; simpl in *; congruence.
Qed.

(** * Further properties of the shell hook *)

Lemma systemCalls_announce program args envs tr :
  systemCalls (announce program args envs ++ tr) = systemCalls tr.
Proof.
  unfold systemCalls, announce. simpl. rewrite !List.filter_app.
  assert (Hnone : ∀ fmt (xs : list string),
             List.filter isSystemCall ((λ x, Debug fmt [AStr x]) <$> xs) = []).
  { intros fmt xs. induction xs as [|x xs IH]; [done | exact IH]. }
  by rewrite !Hnone.
Qed.

Lemma forkCalls_announce program args envs tr :
  forkCalls (announce program args envs ++ tr) = forkCalls tr.
Proof.
  unfold forkCalls, announce. simpl. rewrite !omap_app.
  assert (Hnone : ∀ fmt (xs : list string),
             omap (λ e, match e with Fork pid => Some pid | _ => None end)
                  ((λ x, Debug fmt [AStr x]) <$> xs) = []).
  { intros fmt xs. induction xs as [|x xs IH]; [done | exact IH]. }
  by rewrite !Hnone.
Qed.

Section InvokeShellFurther.
Variable WIFEXITED : Z → bool.
Variable WEXITSTATUS : Z → Z.

(** X9: every store of [invokeShell] falls inside the array it has
    allocated, whatever the program, the arguments and the environment
    and whatever the system answers: no call leaves defined behaviour. *)
Theorem invokeShell_stores_in_bounds os program args envs :
  outcome (invokeShell WIFEXITED WEXITSTATUS os program args envs) ≠ Undefined.
Proof.
  destruct (decide (fork_result os = 0)) as [Hchild|Hnot].
  - rewrite invokeShell_child by done. cbn [outcome].
    by destruct (execvpe_starts os).
  - destruct (decide (fork_result os = -1)) as [Hfail|Hok].
    + by rewrite invokeShell_fork_failed.
    + by rewrite invokeShell_parent.
Qed.

(** X10: every call forks exactly once, and what comes before the fork
    is the debug line for the program, one for each argument and one for
    each environment entry, in their order. *)
Theorem invokeShell_forks_once os program args envs :
  let r := invokeShell WIFEXITED WEXITSTATUS os program args envs in
  forkCalls (trace r) = [fork_result os]
  ∧ ∃ rest, trace r = announce program args envs ++ Fork (fork_result os) :: rest.
Proof.
  destruct (decide (fork_result os = 0)) as [Hchild|Hnot].
  - rewrite invokeShell_child by done. cbn [trace].
    rewrite forkCalls_announce, Hchild. split; [|by eexists].
    by destruct (execvpe_starts os).
  - destruct (decide (fork_result os = -1)) as [Hfail|Hok].
    + rewrite invokeShell_fork_failed by done. cbn [trace].
      rewrite forkCalls_announce, Hfail. split; [done | by eexists].
    + rewrite invokeShell_parent by done. cbn [trace].
      rewrite forkCalls_announce. split; [|by eexists].
      destruct (WIFEXITED (waitpid_status os)); [|done].
      by destruct (decide (WEXITSTATUS (waitpid_status os) ≠ 0)).
Qed.

(** X11: when [fork] did not fail, the system calls of a call are, in
    order, [fork], [close(0)] and [execvpe] in the child, and [fork] and
    [waitpid] on the child in the parent: the child never waits, and the
    parent neither closes its standard input nor executes the
    program. *)
Theorem invokeShell_system_calls os program args envs :
  fork_result os ≠ -1 →
  systemCalls (trace (invokeShell WIFEXITED WEXITSTATUS os program args envs)) =
    if decide (fork_result os = 0)
    then [Fork 0; Close 0;
          Execvpe program (Str program :: (Str <$> args) ++ [NULL])
                  ((Str <$> envs) ++ [NULL])]
    else [Fork (fork_result os);
          Waitpid (fork_result os) 0 (waitpid_status os)].
Proof.
  intros Hok.
  destruct (decide (fork_result os = 0)) as [Hchild|Hnot].
  - rewrite invokeShell_child by done. cbn [trace].
    rewrite systemCalls_announce.
    by destruct (execvpe_starts os).
  - rewrite invokeShell_parent by done. cbn [trace].
    rewrite systemCalls_announce.
    destruct (WIFEXITED (waitpid_status os)); [|done].
    by destruct (decide (WEXITSTATUS (waitpid_status os) ≠ 0)).
Qed.
End InvokeShellFurther.

(** ** Concrete instances *)

(** A telegram whose one record is a maximum, not an instantaneous
    value. *)
Lemma processContent_nothing_found_witness :
  processContent
    (mkTelegram _
       [("1C06", mkDVEntry MeasurementType.Maximum ValueInformation.EnergyWh
                   0 0 0 0 PackedDecimal [0x50; 0x00; 0x00; 0x00] 15)] [])
    new_MeterSharkyTch
  = (new_MeterSharkyTch,
     mkTelegram _
       [("1C06", mkDVEntry MeasurementType.Maximum ValueInformation.EnergyWh
                   0 0 0 0 PackedDecimal [0x50; 0x00; 0x00; 0x00] 15)] []).
Proof.
  apply processContent_nothing_found.
  intros f. destruct f; reflexivity.
Defined.

Lemma disjoint_telegrams_commute_witness :
  processAll [telegram_T2; telegram_power] new_MeterSharkyTch
  = processAll [telegram_power; telegram_T2] new_MeterSharkyTch.
Proof.
  apply disjoint_telegrams_commute.
  intros f. destruct f; (by left) || (by right).
Defined.

Lemma later_telegram_supersedes_witness :
  processAll [telegram_T2; telegram_T1] new_MeterSharkyTch
  = processAll [telegram_T1] new_MeterSharkyTch.
Proof.
  apply later_telegram_supersedes.
  intros f [v Hv]. destruct f; try discriminate Hv; by eexists.
Defined.

Lemma outputs_unchanged_when_absent_witness :
  returnTemperature
    (fst (processContent telegram_T2 (processAll [telegram_T1] new_MeterSharkyTch)))
    Unit.F
  = returnTemperature (processAll [telegram_T1] new_MeterSharkyTch) Unit.F.
Proof.
  pose proof outputs_unchanged_when_absent as Hall.
  assert (Hp : prints !! 5%nat
               = Some (mkPrint "return_temperature" Quantity.Temperature
                         returnTemperature "The return temperature." true true))
    by reflexivity.
  assert (Hf : fields !! 5%nat = Some ReturnTemp) by reflexivity.
  apply (Forall2_lookup_lr _ _ _ _ _ _ Hall Hp Hf records_parser telegram_T2).
  reflexivity.
Defined.

Lemma one_record_one_member_witness :
  let m' := fst (processContent telegram_power new_MeterSharkyTch) in
  member PowerNow m' ≠ member PowerNow new_MeterSharkyTch
  ∧ PowerNow = PowerNow.
Proof.
  assert (Hchanged :
            member PowerNow (fst (processContent telegram_power new_MeterSharkyTch))
            ≠ member PowerNow new_MeterSharkyTch)
    by (vm_compute; discriminate).
  split; [exact Hchanged|].
  exact (one_record_one_member "0C2B"
           (bcdRecord ValueInformation.PowerW (-3) 0 [0x70; 0x64; 0x02; 0x00] 30)
           [] new_MeterSharkyTch PowerNow PowerNow Hchanged Hchanged).
Defined.

Lemma invokeShell_system_calls_witness :
  fork_result (mkOS 4711 true 512) ≠ -1
  ∧ systemCalls (trace (invokeShell glibc_WIFEXITED glibc_WEXITSTATUS
                          (mkOS 4711 true 512) "notify" ["-m"] ["METER_ID=12345678"]))
    = [Fork 4711; Waitpid 4711 0 512].
Proof.
  assert (Hok : fork_result (mkOS 4711 true 512) ≠ -1) by (simpl; lia).
  split; [exact Hok|].
  exact (invokeShell_system_calls glibc_WIFEXITED glibc_WEXITSTATUS
           (mkOS 4711 true 512) "notify" ["-m"] ["METER_ID=12345678"] Hok).
Defined.
